(** * A shallow embedding of the vde3 core interface

    The repository ships two headers: [include/vde3/packet.h] (the packet
    buffer) and [vde3.h] (event handler contract, components, context,
    connection-manager callbacks, logging).  Constants, struct layouts and
    prototypes are embedded from the headers; the bodies that the headers
    only declare are modelled from the spec and marked as such. *)

From stdpp Require Import base gmap sets list strings.
From Stdlib Require Import ZArith Lia Strings.Byte.

Open Scope nat_scope.

(* ------------------------------------------------------------------ *)
(** ** Packet buffer ([include/vde3/packet.h]) *)

Module Packet.

(** [struct vde_hdr]: [uint8_t version; uint8_t type; uint16_t pkt_len;]
    -- four bytes with no padding. *)
Record vde_hdr := mk_vde_hdr {
  version : Z;
  type : Z;
  pkt_len : Z
}.

Definition sizeof_vde_hdr : nat := 1 + 1 + 2.

(** [struct vde_pkt].  The four pointers [hdr], [head], [payload] and
    [tail] point inside the flexible array member [data]; they are kept
    as byte offsets from [data], so that [data + k] is offset [k]. *)
Record vde_pkt := mk_vde_pkt {
  hdr : nat;
  head : nat;
  payload : nat;
  tail : nat;
  data_size : nat;
  data : list byte
}.

(** The layout [head margin | header | payload | tail margin] inside
    [data[0 .. data_size)]. *)
Definition pkt_wf (p : vde_pkt) : Prop :=
  p.(head) <= p.(hdr) /\ p.(hdr) + sizeof_vde_hdr <= p.(payload) /\
  p.(payload) <= p.(tail) /\ p.(tail) <= p.(data_size) /\
  length p.(data) = p.(data_size).

Definition head_margin (p : vde_pkt) : nat := p.(hdr) - p.(head).
Definition tail_margin (p : vde_pkt) : nat := p.(data_size) - p.(tail).
Definition payload_len (p : vde_pkt) : nat := p.(tail) - p.(payload).

(** [n] bytes of [l] starting at offset [a]. *)
Definition slice (l : list byte) (a n : nat) : list byte := firstn n (skipn a l).

(** [memcpy(l + a, xs, length xs)]. *)
Definition memcpy_at (l : list byte) (a : nat) (xs : list byte) : list byte :=
  firstn a l ++ xs ++ skipn (a + length xs) l.

(** Modelled from the spec: the body of [vde_pkt_init] (only declared in
    packet.h).  [head_size] bytes of head room precede the header, the
    payload follows the header, and [tail_size] bytes of tail room end the
    allocation; the bytes of [data] are left as they are. *)
Definition vde_pkt_init (pkt : vde_pkt) (data_sz head_sz tail_sz : nat) : vde_pkt :=
  {| head := 0;
     hdr := head_sz;
     payload := head_sz + sizeof_vde_hdr;
     tail := data_sz - tail_sz;
     data_size := data_sz;
     data := pkt.(data) |}.

(** Modelled from the spec: the body of [vde_pkt_cpy] (only declared in
    packet.h).  The populated span of [src] -- head margin, header,
    payload and tail margin, i.e. [src.data[src.head .. src.data_size)] --
    is copied to the same offsets of [dst.data], and [dst]'s four pointers
    get [src]'s offsets; [dst.data_size] (its allocation) is unchanged. *)
Definition vde_pkt_cpy (dst src : vde_pkt) : vde_pkt :=
  {| head := src.(head);
     hdr := src.(hdr);
     payload := src.(payload);
     tail := src.(tail);
     data_size := dst.(data_size);
     data := memcpy_at dst.(data) src.(head)
               (slice src.(data) src.(head) (src.(data_size) - src.(head))) |}.

(** Modelled from the spec: the body of [vde_pkt_compact_cpy] (only
    declared in packet.h, "Does not keep head/tail space").  Only the
    header and the payload are copied: the header goes to the start of
    [dst.data], the payload right after it, and the destination packet
    spans exactly these bytes, with neither head nor tail room. *)
Definition vde_pkt_compact_cpy (dst src : vde_pkt) : vde_pkt :=
  let len := payload_len src in
  {| head := 0;
     hdr := 0;
     payload := sizeof_vde_hdr;
     tail := sizeof_vde_hdr + len;
     data_size := sizeof_vde_hdr + len;
     data := firstn (sizeof_vde_hdr + len)
               (memcpy_at dst.(data) 0
                  (slice src.(data) src.(hdr) sizeof_vde_hdr ++
                   slice src.(data) src.(payload) len)) |}.

End Packet.

(* ------------------------------------------------------------------ *)
(** ** Event handler constants ([vde3.h]) *)

Module Events.

Definition VDE_EV_READ : Z := 0x02%Z.
Definition VDE_EV_WRITE : Z := 0x04%Z.
Definition VDE_EV_PERSIST : Z := 0x10%Z.

(** Whether the flag [f] is present in the event mask [events]. *)
Definition has_flag (events f : Z) : bool := negb (Z.eqb (Z.land events f) 0).

(** The mask built from a choice of the three flags. *)
Definition mask_of (r w p : bool) : Z :=
  Z.lor (if r then VDE_EV_READ else 0%Z)
        (Z.lor (if w then VDE_EV_WRITE else 0%Z) (if p then VDE_EV_PERSIST else 0%Z)).

End Events.

(* ------------------------------------------------------------------ *)
(** ** C declarations of [vde3.h] *)

Module CDecl.

#[local] Set Warnings "-register-all".

(** The C types that occur in the prototypes and callback typedefs. *)
Inductive ctype :=
  | CVoid
  | CInt
  | CShort
  | CChar
  | CNamed (s : string)          (* struct or typedef name *)
  | CConst (t : ctype)
  | CPtr (t : ctype)
  | CFun (ret : ctype) (params : list ctype) (variadic : bool).

Record c_decl := mk_decl {
  d_name : string;
  d_type : ctype
}.

Definition vde_context_t := CNamed "vde_context".
Definition vde_component_t := CNamed "vde_component".

(** [typedef void ( *vde_connect_success_cb)(vde_component *cm, void *arg);] *)
Definition vde_connect_success_cb : ctype :=
  CPtr (CFun CVoid [CPtr vde_component_t; CPtr CVoid] false).

(** [typedef void ( *vde_connect_error_cb)(vde_component *cm, void *arg);] *)
Definition vde_connect_error_cb : ctype :=
  CPtr (CFun CVoid [CPtr vde_component_t; CPtr CVoid] false).

(** The context operations declared in vde3.h, in header order. *)
Definition context_api : list c_decl := [
  mk_decl "vde_context_new"
    (CFun CInt [CPtr (CPtr vde_context_t)] false);
  mk_decl "vde_context_init"
    (CFun CInt [CPtr vde_context_t; CPtr (CNamed "vde_event_handler")] false);
  mk_decl "vde_context_fini"
    (CFun CVoid [CPtr vde_context_t] false);
  mk_decl "vde_context_delete"
    (CFun CVoid [CPtr vde_context_t] false);
  mk_decl "vde_context_new_component"
    (CFun CInt [CPtr vde_context_t; CNamed "vde_component_kind";
                CPtr (CConst CChar); CPtr (CConst CChar);
                CPtr (CPtr vde_component_t)] true);
  mk_decl "vde_context_get_component"
    (CFun (CPtr vde_component_t) [CPtr vde_context_t; CPtr (CConst CChar)] false);
  mk_decl "vde_context_component_del"
    (CFun CInt [CPtr vde_context_t; CPtr vde_component_t] false);
  mk_decl "vde_context_config_save"
    (CFun CInt [CPtr vde_context_t; CPtr (CConst CChar)] false);
  mk_decl "vde_context_config_load"
    (CFun CInt [CPtr vde_context_t; CPtr (CConst CChar)] false)
].

Definition ret_type (t : ctype) : option ctype :=
  match t with CFun r _ _ => Some r | _ => None end.

Definition params_of (t : ctype) : list ctype :=
  match t with
  | CPtr (CFun _ ps _) => ps
  | CFun _ ps _ => ps
  | _ => []
  end.

Definition ctx_fini_name : string := "vde_context_fini".
Definition ctx_delete_name : string := "vde_context_delete".
Definition ctx_get_component_name : string := "vde_context_get_component".

(** The return type each context operation has in the header. *)
Definition declared_ret (name : string) : ctype :=
  if String.eqb name ctx_fini_name then CVoid
  else if String.eqb name ctx_delete_name then CVoid
  else if String.eqb name ctx_get_component_name then CPtr vde_component_t
  else CInt.

End CDecl.

(* ------------------------------------------------------------------ *)
(** ** Components and context ([vde3.h]) *)

Module Context.

(** [enum vde_component_kind]. *)
Inductive vde_component_kind :=
  | VDE_ENGINE
  | VDE_TRANSPORT
  | VDE_CONNECTION_MANAGER.

#[global] Instance vde_component_kind_eq_dec : EqDecision vde_component_kind.
Proof. solve_decision. Defined.

(** A component: kind, family, unique name, and the names of the
    components it holds (non-owning) back-references to. *)
Record vde_component := mk_component {
  c_kind : vde_component_kind;
  c_family : string;
  c_name : string;
  c_refs : list string
}.

(** The failure signals of the context operations. *)
Inductive vde_error :=
  | E_NOT_FOUND
  | E_NAME_COLLISION
  | E_IN_USE.

(** [int] results: zero (with the produced value) or an error code. *)
Inductive vde_result (A : Type) :=
  | VOk (a : A)
  | VErr (e : vde_error).
Arguments VOk {A} a.
Arguments VErr {A} e.

Inductive vde_ctx_status :=
  | CTX_ALLOCATED
  | CTX_ACTIVE
  | CTX_FINALIZED.

(** Modelled from the spec: [struct vde_context] (only forward-declared in
    vde3.h): lifecycle state, the bound event handler, the tokens of the
    registrations made with it, the registered [(kind, family)]
    implementations and the component registry keyed by name. *)
Record vde_context := mk_context {
  ctx_status : vde_ctx_status;
  ctx_handler : option nat;
  ctx_events : list nat;
  ctx_impls : list (vde_component_kind * string);
  ctx_components : gmap string vde_component
}.

Definition with_components (ctx : vde_context)
    (reg : gmap string vde_component) : vde_context :=
  mk_context ctx.(ctx_status) ctx.(ctx_handler) ctx.(ctx_events)
             ctx.(ctx_impls) reg.

(** Number of other registered components holding a back-reference to
    the component named [name]. *)
Definition component_refcount (reg : gmap string vde_component)
    (name : string) : nat :=
  length (List.filter
            (fun kc => bool_decide (kc.1 <> name /\ name ∈ kc.2.(c_refs)))
            (map_to_list reg)).

Definition impl_registered (ctx : vde_context) (kind : vde_component_kind)
    (family : string) : bool :=
  bool_decide ((kind, family) ∈ ctx.(ctx_impls)).

(** Auto-generated names: a name not yet taken in the registry. *)
Definition auto_name (reg : gmap string vde_component) : string :=
  fresh (dom reg).

(** Modelled from the spec: the body of [vde_context_new_component]
    (only declared in vde3.h).  Resolve [(kind, family)], pick [name] or
    an auto-generated one, refuse a taken name, insert.  [refs] stands
    for the family-specific arguments naming the components the new one
    references. *)
Definition vde_context_new_component (ctx : vde_context)
    (kind : vde_component_kind) (family : string) (name : option string)
    (refs : list string) : vde_context * vde_result vde_component :=
  if negb (impl_registered ctx kind family) then (ctx, VErr E_NOT_FOUND)
  else
    let reg := ctx.(ctx_components) in
    let n := match name with Some n => n | None => auto_name reg end in
    match reg !! n with
    | Some _ => (ctx, VErr E_NAME_COLLISION)
    | None =>
        let c := mk_component kind family n refs in
        (with_components ctx (<[n := c]> reg), VOk c)
    end.

(** [vde_context_get_component]: the component, [NULL] if not found. *)
Definition vde_context_get_component (ctx : vde_context) (name : string)
    : option vde_component :=
  ctx.(ctx_components) !! name.

(** Modelled from the spec: the body of [vde_context_component_del]
    (only declared in vde3.h, with the note that it must check the
    reference counter and fail if the component is in use). *)
Definition vde_context_component_del (ctx : vde_context)
    (component : vde_component) : vde_context * vde_result unit :=
  let n := component.(c_name) in
  match ctx.(ctx_components) !! n with
  | None => (ctx, VErr E_NOT_FOUND)
  | Some _ =>
      if bool_decide (0 < component_refcount ctx.(ctx_components) n)
      then (ctx, VErr E_IN_USE)
      else (with_components ctx (delete n ctx.(ctx_components)), VOk tt)
  end.

(** Modelled from the spec: the body of [vde_context_fini] (only declared
    in vde3.h).  An active context is quiesced: its registrations with
    the event handler are dropped and it becomes finalized, keeping its
    components for [vde_context_delete]; on any other state it does
    nothing. *)
Definition vde_context_fini (ctx : vde_context) : vde_context :=
  match ctx.(ctx_status) with
  | CTX_ACTIVE =>
      mk_context CTX_FINALIZED ctx.(ctx_handler) [] ctx.(ctx_impls)
                 ctx.(ctx_components)
  | _ => ctx
  end.

End Context.

(* ------------------------------------------------------------------ *)
(** ** Connection-manager asynchronous connect *)

Module Connect.

Import Events.

(** A registration made with the event handler through [event_add]. *)
Record ev_reg := mk_reg {
  r_token : nat;
  r_fd : Z;
  r_events : Z;
  r_cm : string;
  r_arg : nat
}.

(** A call of one of the application callbacks
    [vde_connect_success_cb] / [vde_connect_error_cb], which receive the
    connection manager and the caller's opaque argument. *)
Inductive cb_call :=
  | CALL_SUCCESS (cm : string) (arg : nat)
  | CALL_ERROR (cm : string) (arg : nat).

(** An event handler: pending registrations, the next token it hands out,
    and the callbacks run so far, each tagged with the token of the
    registration that ran it. *)
Record ev_loop := mk_loop {
  l_pending : list ev_reg;
  l_next : nat;
  l_trace : list (nat * cb_call)
}.

(** [event_add] of a working handler: registers the interest and returns
    a new token. *)
Definition event_add (l : ev_loop) (fd events : Z) (cm : string) (arg : nat)
    : ev_loop * nat :=
  let t := l.(l_next) in
  (mk_loop (l.(l_pending) ++ [mk_reg t fd events cm arg]) (S t) l.(l_trace), t).

(** Modelled from the spec: the connect operation of a connection manager
    (no connect entry point is in the headers; only its two callback
    typedefs are).  It starts the connection on [fd], registers one-shot
    interest in write readiness, and returns at once; the token names the
    request. *)
Definition vde_cm_connect (l : ev_loop) (cm : string) (fd : Z) (arg : nat)
    : ev_loop * nat :=
  event_add l fd VDE_EV_WRITE cm arg.

(** Modelled from the spec: the event callback of a connect request; [ok]
    is the connect outcome found on the fd when the event fires. *)
Definition connect_event_cb (r : ev_reg) (ok : bool) : cb_call :=
  if ok then CALL_SUCCESS r.(r_cm) r.(r_arg) else CALL_ERROR r.(r_cm) r.(r_arg).

(** The handler fires the registration [t]: a registration without
    [VDE_EV_PERSIST] is dropped, then its callback runs.  Firing a token
    that is not pending does nothing. *)
Definition fire (l : ev_loop) (t : nat) (ok : bool) : ev_loop :=
  match List.find (fun r => Nat.eqb r.(r_token) t) l.(l_pending) with
  | None => l
  | Some r =>
      let pending :=
        if has_flag r.(r_events) VDE_EV_PERSIST then l.(l_pending)
        else List.filter (fun r' => negb (Nat.eqb r'.(r_token) t)) l.(l_pending) in
      mk_loop pending l.(l_next) (l.(l_trace) ++ [(t, connect_event_cb r ok)])
  end.

(** A run of the handler: a sequence of firings with their outcomes. *)
Fixpoint run (l : ev_loop) (fs : list (nat * bool)) : ev_loop :=
  match fs with
  | [] => l
  | (t, ok) :: fs' => run (fire l t ok) fs'
  end.

(** Callbacks run on behalf of the request [t]. *)
Definition calls_for (t : nat) (tr : list (nat * cb_call)) : nat :=
  length (List.filter (fun e => Nat.eqb e.1 t) tr).

Definition pending_for (t : nat) (l : ev_loop) : list ev_reg :=
  List.filter (fun r => Nat.eqb r.(r_token) t) l.(l_pending).

(** Tokens in use are below [l_next]. *)
Definition loop_wf (l : ev_loop) : Prop :=
  Forall (fun r => r.(r_token) < l.(l_next)) l.(l_pending) /\
  Forall (fun e => e.1 < l.(l_next)) l.(l_trace).

(** The state of request [t]: still pending once, one-shot, with no
    callback run; or completed with one callback run and nothing
    pending. *)
Definition req_state (t : nat) (l : ev_loop) : Prop :=
  (calls_for t l.(l_trace) = 0 /\
   exists r, pending_for t l = [r] /\ has_flag r.(r_events) VDE_EV_PERSIST = false) \/
  (calls_for t l.(l_trace) = 1 /\ pending_for t l = []).

End Connect.

(* ------------------------------------------------------------------ *)
(** ** Event deletion ([vde3.h], [struct vde_event_handler]) *)

Module Handler.

Import Connect.

(** [event_del] of a working handler, as its doc comment in vde3.h
    describes it: the registration [t] -- not yet fired, or persistent --
    is removed. *)
Definition event_del (l : ev_loop) (t : nat) : ev_loop :=
  mk_loop (List.filter (fun r => negb (Nat.eqb r.(r_token) t)) l.(l_pending))
          l.(l_next) l.(l_trace).

End Handler.

(* ------------------------------------------------------------------ *)
(** ** Registry references *)

Module Registry.

Import Context.

(** Every back-reference a registered component holds to another
    component names a registered component. *)
Definition registry_closed (reg : gmap string vde_component) : Prop :=
  forall k c r, reg !! k = Some c -> r ∈ c.(c_refs) -> r <> k -> is_Some (reg !! r).

End Registry.

(* ------------------------------------------------------------------ *)
(** ** Logging ([vde3.h]) *)

Module Log.

(** The priorities of [<syslog.h>]. *)
Definition LOG_ERR : Z := 3%Z.
Definition LOG_WARNING : Z := 4%Z.
Definition LOG_NOTICE : Z := 5%Z.
Definition LOG_INFO : Z := 6%Z.
Definition LOG_DEBUG : Z := 7%Z.

Definition VDE3_LOG_ERROR : Z := LOG_ERR.
Definition VDE3_LOG_WARNING : Z := LOG_WARNING.
Definition VDE3_LOG_NOTICE : Z := LOG_NOTICE.
Definition VDE3_LOG_INFO : Z := LOG_INFO.
Definition VDE3_LOG_DEBUG : Z := LOG_DEBUG.

(** Where a message goes: standard error or the handler set by the
    application. *)
Inductive log_sink :=
  | STDERR
  | HANDLER (h : nat).

Record log_state := mk_log {
  log_handler : option nat;
  log_out : list (log_sink * Z * string)
}.

(** Modelled from the header's doc comments: [vde_log_set_handler]
    installs the handler, [NULL] meaning standard error. *)
Definition vde_log_set_handler (st : log_state) (handler : option nat) : log_state :=
  mk_log handler st.(log_out).

Definition current_sink (st : log_state) : log_sink :=
  match st.(log_handler) with None => STDERR | Some h => HANDLER h end.

(** Modelled from the header's doc comments: [vvde_log] / [vde_log] hand
    the message with its priority to the current sink (the format
    arguments are not modelled). *)
Definition vde_log (st : log_state) (priority : Z) (format : string) : log_state :=
  mk_log st.(log_handler) (st.(log_out) ++ [(current_sink st, priority, format)]).

(** The logging macros [vde_error] ... [vde_debug]. *)
Inductive log_macro :=
  | M_vde_error
  | M_vde_warning
  | M_vde_notice
  | M_vde_info
  | M_vde_debug.

Definition macro_priority (m : log_macro) : Z :=
  match m with
  | M_vde_error => VDE3_LOG_ERROR
  | M_vde_warning => VDE3_LOG_WARNING
  | M_vde_notice => VDE3_LOG_NOTICE
  | M_vde_info => VDE3_LOG_INFO
  | M_vde_debug => VDE3_LOG_DEBUG
  end.

(** The expansion of a macro; [vde3_debug] tells whether [VDE3_DEBUG] is
    defined, without which [vde_debug] expands to nothing. *)
Definition expand_macro (vde3_debug : bool) (st : log_state) (m : log_macro)
    (fmt : string) : log_state :=
  match m with
  | M_vde_debug => if vde3_debug then vde_log st VDE3_LOG_DEBUG fmt else st
  | _ => vde_log st (macro_priority m) fmt
  end.

Fixpoint run_macros (vde3_debug : bool) (st : log_state)
    (ms : list (log_macro * string)) : log_state :=
  match ms with
  | [] => st
  | (m, fmt) :: ms' => run_macros vde3_debug (expand_macro vde3_debug st m fmt) ms'
  end.

Definition is_debug (m : log_macro) : bool :=
  match m with M_vde_debug => true | _ => false end.

End Log.

(* ------------------------------------------------------------------ *)
(** ** Concrete inputs *)

Module Fixtures.

Import Packet Context Connect.

Definition cpy_src : vde_pkt :=
  mk_vde_pkt 1 0 5 6 8 [x01; x02; x03; x04; x05; x06; x07; x08].
Definition cpy_dst : vde_pkt :=
  mk_vde_pkt 0 0 4 10 10 (repeat x00 10).

Definition compact_src : vde_pkt :=
  mk_vde_pkt 2 0 6 8 12
    [x00; x00; x01; x00; x00; x02; xaa; xbb; x00; x00; x00; x00].
Definition compact_dst : vde_pkt := mk_vde_pkt 0 0 4 20 20 (repeat x00 20).

Definition comp_A : vde_component := mk_component VDE_TRANSPORT "null" "A" ["B"].
Definition comp_B : vde_component := mk_component VDE_ENGINE "null" "B" [].

Definition ctx_AB : vde_context :=
  mk_context CTX_ACTIVE (Some 0) [] [(VDE_TRANSPORT, "null"); (VDE_ENGINE, "null")]
    (<["A" := comp_A]> (<["B" := comp_B]> ∅)).

Definition ctx_empty : vde_context :=
  mk_context CTX_ACTIVE (Some 0) [] [(VDE_TRANSPORT, "null"); (VDE_ENGINE, "null")] ∅.

Definition loop0 : ev_loop := mk_loop [] 0 [].

End Fixtures.

(* ================================================================== *)
(** * Properties *)

(* ------------------------------------------------------------------ *)
(** ** Packet buffer *)

Module PacketFacts.

Import Packet Fixtures.

Lemma length_slice l a n : a + n <= length l -> length (slice l a n) = n.
Proof.
  intros H. unfold slice. rewrite length_take_le; [done|].
  rewrite length_drop. lia.
Qed.

Lemma lookup_slice l a n k : k < n -> slice l a n !! k = l !! (a + k).
Proof. intros H. unfold slice. rewrite lookup_take_lt by done. apply lookup_drop. Qed.

Lemma lookup_slice_ge l a n k : n <= k -> slice l a n !! k = None.
Proof. intros H. unfold slice. by apply lookup_take_ge. Qed.

Lemma length_memcpy_at l a xs :
  a + length xs <= length l -> length (memcpy_at l a xs) = length l.
Proof.
  intros H. unfold memcpy_at.
  rewrite !length_app, length_take_le, length_drop by lia. lia.
Qed.

Lemma lookup_memcpy_at_in l a xs i :
  a <= length l -> a <= i < a + length xs ->
  memcpy_at l a xs !! i = xs !! (i - a).
Proof.
  intros Ha Hi. unfold memcpy_at.
  rewrite lookup_app_r by (rewrite length_take_le; lia).
  rewrite length_take_le by lia.
  by rewrite lookup_app_l by lia.
Qed.

(** Reading back [m] bytes at offset [k] of what [memcpy_at] wrote. *)
Lemma slice_memcpy_at l a xs k m :
  a <= length l -> k + m <= length xs ->
  slice (memcpy_at l a xs) (a + k) m = slice xs k m.
Proof.
  intros Ha Hk. apply list_eq. intros i.
  destruct (decide (i < m)).
  - rewrite !lookup_slice by done.
    rewrite lookup_memcpy_at_in by lia. f_equal. lia.
  - rewrite !lookup_slice_ge by lia. done.
Qed.

Lemma slice_app_r xs ys k m :
  length xs = k -> m = length ys -> slice (xs ++ ys) k m = ys.
Proof.
  intros Hk Hm. subst k m. unfold slice. rewrite drop_app_length.
  apply take_ge. lia.
Qed.

Lemma slice_app_l xs ys m :
  m = length xs -> slice (xs ++ ys) 0 m = xs.
Proof. intros ->. unfold slice. simpl. apply take_app_length. Qed.

(** C1: for [head_size + sizeof(vde_hdr) + tail_size <= data_size],
    [vde_pkt_init] lays out [head <= hdr <= payload <= tail <= data +
    data_size], with [head_size] bytes of head room before the header and
    [tail_size] bytes of tail room after the payload. *)
Theorem vde_pkt_init_layout (pkt : vde_pkt) (data_sz head_sz tail_sz : nat)
    (Hfit : head_sz + sizeof_vde_hdr + tail_sz <= data_sz) :
  let p := vde_pkt_init pkt data_sz head_sz tail_sz in
  p.(head) <= p.(hdr) /\ p.(hdr) + sizeof_vde_hdr <= p.(payload) /\
  p.(payload) <= p.(tail) /\ p.(tail) <= p.(data_size) /\
  p.(data_size) = data_sz /\
  head_margin p = head_sz /\ tail_margin p = tail_sz.
Proof.
  unfold vde_pkt_init, head_margin, tail_margin. simpl. lia.
Qed.

Lemma vde_pkt_init_layout_witness :
  4 + sizeof_vde_hdr + 2 <= 64 /\
  (vde_pkt_init (mk_vde_pkt 0 0 0 0 0 []) 64 4 2).(payload) = 8.
Proof.
  split; [unfold sizeof_vde_hdr; lia|].
  pose proof (vde_pkt_init_layout (mk_vde_pkt 0 0 0 0 0 []) 64 4 2) as H.
  destruct H as [_ [_ [_ [_ _]]]]; [unfold sizeof_vde_hdr; lia|].
  reflexivity.
Defined.

(** C4: when [dst] can hold [src]'s whole span, [vde_pkt_cpy] gives [dst]
    [src]'s four region boundaries, keeps [dst]'s allocation, and carries
    every byte of head room, header, payload and tail room of [src]. *)
Theorem vde_pkt_cpy_transfers (dst src : vde_pkt)
    (Hsrc : pkt_wf src) (Hdst : length dst.(data) = dst.(data_size))
    (Hcap : src.(data_size) <= dst.(data_size)) :
  let d := vde_pkt_cpy dst src in
  d.(head) = src.(head) /\ d.(hdr) = src.(hdr) /\
  d.(payload) = src.(payload) /\ d.(tail) = src.(tail) /\
  d.(data_size) = dst.(data_size) /\ pkt_wf d /\
  head_margin d = head_margin src /\ payload_len d = payload_len src /\
  (forall i, src.(head) <= i < src.(data_size) -> d.(data) !! i = src.(data) !! i).
Proof.
  destruct Hsrc as (H1 & H2 & H3 & H4 & H5).
  assert (Hsl : length (slice src.(data) src.(head) (src.(data_size) - src.(head)))
                = src.(data_size) - src.(head))
    by (apply length_slice; lia).
  unfold vde_pkt_cpy, pkt_wf, head_margin, payload_len; simpl.
  repeat split; try lia.
  - rewrite length_memcpy_at; lia.
  - intros i Hi. rewrite lookup_memcpy_at_in by lia.
    rewrite lookup_slice by lia. f_equal. lia.
Qed.

Lemma vde_pkt_cpy_transfers_witness :
  (vde_pkt_cpy cpy_dst cpy_src).(data) !! 5 = Some x06.
Proof.
  destruct (vde_pkt_cpy_transfers cpy_dst cpy_src) as (_ & _ & _ & _ & _ & _ & _ & _ & Hb).
  - unfold cpy_src, pkt_wf, sizeof_vde_hdr; simpl; lia.
  - reflexivity.
  - unfold cpy_src, cpy_dst; simpl; lia.
  - rewrite Hb by (simpl; lia). reflexivity.
Defined.

(** C3: when [dst] can hold the header and the payload of [src],
    [vde_pkt_compact_cpy] copies the header to the start of [dst] and the
    payload right after it, byte for byte, and leaves [dst] with neither
    head nor tail room, whatever the margins of [src]. *)
Theorem vde_pkt_compact_cpy_layout (dst src : vde_pkt)
    (Hsrc : pkt_wf src) (Hdst : length dst.(data) = dst.(data_size))
    (Hcap : sizeof_vde_hdr + payload_len src <= dst.(data_size)) :
  let d := vde_pkt_compact_cpy dst src in
  head_margin d = 0 /\ tail_margin d = 0 /\ d.(head) = 0 /\
  d.(payload) = d.(hdr) + sizeof_vde_hdr /\
  payload_len d = payload_len src /\
  slice d.(data) d.(payload) (payload_len d) =
    slice src.(data) src.(payload) (payload_len src) /\
  slice d.(data) d.(hdr) sizeof_vde_hdr = slice src.(data) src.(hdr) sizeof_vde_hdr /\
  pkt_wf d.
Proof.
  destruct Hsrc as (H1 & H2 & H3 & H4 & H5).
  unfold payload_len in *.
  set (len := src.(tail) - src.(payload)) in *.
  set (xh := slice src.(data) src.(hdr) sizeof_vde_hdr).
  set (xp := slice src.(data) src.(payload) len).
  assert (Hxh : length xh = sizeof_vde_hdr) by (apply length_slice; lia).
  assert (Hxp : length xp = len) by (apply length_slice; lia).
  assert (Hd : firstn (sizeof_vde_hdr + len) (memcpy_at dst.(data) 0 (xh ++ xp)) = xh ++ xp).
  { unfold memcpy_at. simpl.
    apply take_app_length'. rewrite length_app. unfold sizeof_vde_hdr in *. lia. }
  unfold vde_pkt_compact_cpy, head_margin, tail_margin, pkt_wf, payload_len.
  cbn [head hdr payload tail data_size data].
  fold len. fold xh xp. rewrite Hd.
  replace (sizeof_vde_hdr + len - sizeof_vde_hdr) with len by lia.
  repeat split; try lia.
  - apply slice_app_r; lia.
  - apply slice_app_l; lia.
  - rewrite length_app. lia.
Qed.

Lemma vde_pkt_compact_cpy_layout_witness :
  head_margin compact_src = 2 /\ tail_margin compact_src = 4 /\
  tail_margin (vde_pkt_compact_cpy compact_dst compact_src) = 0.
Proof.
  destruct (vde_pkt_compact_cpy_layout compact_dst compact_src)
    as (_ & Ht & _).
  - unfold compact_src, pkt_wf, sizeof_vde_hdr; simpl; lia.
  - reflexivity.
  - unfold compact_src, compact_dst, sizeof_vde_hdr, payload_len; simpl; lia.
  - split; [reflexivity|]. split; [reflexivity|]. exact Ht.
Defined.

End PacketFacts.

(* ------------------------------------------------------------------ *)
(** ** Context registry *)

Module ContextFacts.

Import Context Fixtures.

Lemma filter_length_pos {A} (f : A -> bool) (l : list A) x :
  In x l -> f x = true -> 0 < length (List.filter f l).
Proof.
  induction l as [|y l IH]; simpl; [done|].
  intros [-> | Hin] Hf.
  - rewrite Hf. simpl. lia.
  - destruct (f y); simpl; [lia|]. by apply IH.
Qed.

Lemma refcount_pos reg name other oc :
  reg !! other = Some oc -> other <> name -> name ∈ oc.(c_refs) ->
  0 < component_refcount reg name.
Proof.
  intros Hl Hne Hr. unfold component_refcount.
  apply (filter_length_pos _ _ (other, oc)).
  - apply list_elem_of_In. by apply elem_of_map_to_list.
  - apply bool_decide_eq_true. simpl. auto.
Qed.

(** C2: removing a registered component that another registered
    component still references fails with [E_IN_USE] and returns the
    context unchanged. *)
Theorem vde_context_component_del_in_use (ctx : vde_context)
    (component : vde_component) (other : string) (oc : vde_component)
    (Hreg : ctx.(ctx_components) !! component.(c_name) = Some component)
    (Hother : ctx.(ctx_components) !! other = Some oc)
    (Hne : other <> component.(c_name))
    (Href : component.(c_name) ∈ oc.(c_refs)) :
  vde_context_component_del ctx component = (ctx, VErr E_IN_USE).
Proof.
  unfold vde_context_component_del. rewrite Hreg.
  rewrite bool_decide_eq_true_2; [done|].
  by eapply refcount_pos.
Qed.

Lemma vde_context_component_del_in_use_witness :
  vde_context_component_del ctx_AB comp_B = (ctx_AB, VErr E_IN_USE).
Proof.
  apply (vde_context_component_del_in_use ctx_AB comp_B "A" comp_A).
  - reflexivity.
  - reflexivity.
  - discriminate.
  - unfold comp_A, comp_B; simpl. left.
Defined.

Lemma impl_registered_with_components ctx reg kind family :
  impl_registered (with_components ctx reg) kind family = impl_registered ctx kind family.
Proof. reflexivity. Qed.

Lemma new_component_taken ctx kind family n refs c :
  impl_registered ctx kind family = true -> ctx.(ctx_components) !! n = Some c ->
  vde_context_new_component ctx kind family (Some n) refs = (ctx, VErr E_NAME_COLLISION).
Proof. intros Hr Hn. unfold vde_context_new_component. rewrite Hr. simpl. by rewrite Hn. Qed.

Lemma new_component_fresh ctx kind family n refs :
  impl_registered ctx kind family = true -> ctx.(ctx_components) !! n = None ->
  vde_context_new_component ctx kind family (Some n) refs =
    (with_components ctx (<[n := mk_component kind family n refs]> ctx.(ctx_components)),
     VOk (mk_component kind family n refs)).
Proof. intros Hr Hn. unfold vde_context_new_component. rewrite Hr. simpl. by rewrite Hn. Qed.

Lemma auto_name_fresh reg : auto_name reg ∉ dom reg.
Proof. unfold auto_name. apply is_fresh. Qed.

Lemma auto_name_not_in reg : reg !! auto_name reg = None.
Proof. apply not_elem_of_dom, auto_name_fresh. Qed.

Lemma new_component_auto ctx kind family refs :
  impl_registered ctx kind family = true ->
  let n := auto_name ctx.(ctx_components) in
  vde_context_new_component ctx kind family None refs =
    (with_components ctx (<[n := mk_component kind family n refs]> ctx.(ctx_components)),
     VOk (mk_component kind family n refs)).
Proof.
  intros Hr n.
  assert (Hf : ctx.(ctx_components) !! n = None) by apply auto_name_not_in.
  unfold vde_context_new_component. rewrite Hr. cbn [negb].
  fold n. by rewrite Hf.
Qed.

Lemma new_component_impls ctx kind family name refs :
  (vde_context_new_component ctx kind family name refs).1.(ctx_impls) = ctx.(ctx_impls).
Proof.
  unfold vde_context_new_component.
  destruct (impl_registered ctx kind family); simpl; [|done].
  by destruct (ctx_components ctx !! _).
Qed.

(** C5: in any context, a second creation under an explicit name fails
    with [E_NAME_COLLISION], whatever the kinds and families of the two
    calls (as long as both resolve); two creations without a name both
    succeed, under two different generated names; and an unregistered
    [(kind, family)] fails with [E_NOT_FOUND]. *)
Theorem vde_context_new_component_names (ctx : vde_context) :
  (forall (name : string) kind1 family1 refs1 kind2 family2 refs2,
     impl_registered ctx kind1 family1 = true ->
     impl_registered ctx kind2 family2 = true ->
     (vde_context_new_component
        (vde_context_new_component ctx kind1 family1 (Some name) refs1).1
        kind2 family2 (Some name) refs2).2 = VErr E_NAME_COLLISION) /\
  (forall kind1 family1 refs1 kind2 family2 refs2,
     impl_registered ctx kind1 family1 = true ->
     impl_registered ctx kind2 family2 = true ->
     match vde_context_new_component ctx kind1 family1 None refs1 with
     | (ctx1, VOk c1) =>
         match vde_context_new_component ctx1 kind2 family2 None refs2 with
         | (_, VOk c2) => c1.(c_name) <> c2.(c_name)
         | _ => False
         end
     | _ => False
     end) /\
  (forall kind family name refs,
     impl_registered ctx kind family = false ->
     (vde_context_new_component ctx kind family name refs).2 = VErr E_NOT_FOUND).
Proof.
  split; [|split].
  - intros name kind1 family1 refs1 kind2 family2 refs2 Hr1 Hr2.
    assert (Hr2' : impl_registered
                     (vde_context_new_component ctx kind1 family1 (Some name) refs1).1
                     kind2 family2 = true)
      by (unfold impl_registered; rewrite new_component_impls; exact Hr2).
    destruct (ctx_components ctx !! name) as [c0|] eqn:Hn.
    + rewrite (new_component_taken ctx kind1 family1 name refs1 c0) in Hr2' |- * by done.
      simpl. by rewrite (new_component_taken _ _ _ _ _ c0).
    + rewrite (new_component_fresh ctx kind1 family1 name refs1) in Hr2' |- * by done.
      simpl. rewrite (new_component_taken _ _ _ _ _ (mk_component kind1 family1 name refs1));
        [done|done|].
      simpl. by rewrite lookup_insert_eq.
  - intros kind1 family1 refs1 kind2 family2 refs2 Hr1 Hr2.
    rewrite (new_component_auto ctx kind1 family1 refs1) by done.
    set (n1 := auto_name (ctx_components ctx)).
    set (reg1 := <[n1 := mk_component kind1 family1 n1 refs1]> (ctx_components ctx)).
    rewrite new_component_auto by (by rewrite impl_registered_with_components).
    simpl. intros Heq.
    apply (auto_name_fresh reg1). rewrite <- Heq.
    unfold reg1. rewrite dom_insert_L. set_solver.
  - intros kind family nm refs Hunreg.
    unfold vde_context_new_component. by rewrite Hunreg.
Qed.

Lemma vde_context_new_component_names_witness :
  (vde_context_new_component
     (vde_context_new_component ctx_empty VDE_TRANSPORT "null" (Some "A") []).1
     VDE_ENGINE "null" (Some "A") []).2 = VErr E_NAME_COLLISION.
Proof.
  destruct (vde_context_new_component_names ctx_empty) as (Hcol & _ & _).
  apply Hcol; reflexivity.
Defined.

(** C7: [vde_context_fini] twice is [vde_context_fini] once. *)
Theorem vde_context_fini_idempotent (ctx : vde_context) :
  vde_context_fini (vde_context_fini ctx) = vde_context_fini ctx.
Proof.
  unfold vde_context_fini. destruct (ctx_status ctx) eqn:Hs; simpl; try rewrite Hs; done.
Qed.

End ContextFacts.

(* ------------------------------------------------------------------ *)
(** ** Event masks and declarations *)

Module DeclFacts.

Import Events CDecl.

(** C8: [VDE_EV_READ = 0x02], [VDE_EV_WRITE = 0x04],
    [VDE_EV_PERSIST = 0x10]; the three are distinct single bits, and any
    combination of them in one mask can be taken apart again flag by
    flag. *)
Theorem vde_ev_flags (r w p : bool) :
  VDE_EV_READ = 0x02%Z /\ VDE_EV_WRITE = 0x04%Z /\ VDE_EV_PERSIST = 0x10%Z /\
  Z.land VDE_EV_READ VDE_EV_WRITE = 0%Z /\
  Z.land VDE_EV_READ VDE_EV_PERSIST = 0%Z /\
  Z.land VDE_EV_WRITE VDE_EV_PERSIST = 0%Z /\
  has_flag (mask_of r w p) VDE_EV_READ = r /\
  has_flag (mask_of r w p) VDE_EV_WRITE = w /\
  has_flag (mask_of r w p) VDE_EV_PERSIST = p.
Proof. destruct r, w, p; vm_compute; repeat split. Qed.

(** C9, as stated: every context operation other than [vde_context_fini]
    and [vde_context_delete] returns [int].  [vde_context_get_component]
    returns a [vde_component *] instead. *)
Lemma context_api_not_all_int :
  ~ Forall (fun d => d.(d_name) <> ctx_fini_name -> d.(d_name) <> ctx_delete_name ->
                     ret_type d.(d_type) = Some CInt) context_api.
Proof.
  intros H. rewrite Forall_forall in H.
  assert (Hin : In (mk_decl "vde_context_get_component"
                  (CFun (CPtr vde_component_t) [CPtr vde_context_t; CPtr (CConst CChar)] false))
                context_api) by (simpl; tauto).
  specialize (H _ (proj2 (list_elem_of_In _ _) Hin)). simpl in H.
  assert (Hbad : Some (CPtr vde_component_t) = Some CInt) by (apply H; discriminate).
  discriminate Hbad.
Qed.

(** C9, amended: [vde_context_fini] and [vde_context_delete] return
    [void], so no failure code can come back from them;
    [vde_context_get_component] returns the component pointer ([NULL]
    when not found); every other context operation returns an [int]
    (zero or an error code). *)
Theorem context_api_return_types :
  Forall (fun d => ret_type d.(d_type) = Some (declared_ret d.(d_name))) context_api /\
  (exists d, In d context_api /\ d.(d_name) = ctx_fini_name /\
             ret_type d.(d_type) = Some CVoid) /\
  (exists d, In d context_api /\ d.(d_name) = ctx_delete_name /\
             ret_type d.(d_type) = Some CVoid).
Proof.
  split; [|split].
  - repeat constructor.
  - eexists. split; [simpl; right; right; left; reflexivity|]. split; reflexivity.
  - eexists. split; [simpl; right; right; right; left; reflexivity|]. split; reflexivity.
Qed.

(** C10: the error callback has the success callback's type: it returns
    nothing and receives only the connection manager and the caller's
    opaque argument. *)
Theorem connect_error_cb_signature :
  vde_connect_error_cb = vde_connect_success_cb /\
  vde_connect_error_cb = CPtr (CFun CVoid [CPtr vde_component_t; CPtr CVoid] false) /\
  params_of vde_connect_error_cb = [CPtr (CNamed "vde_component"); CPtr CVoid].
Proof. repeat split. Qed.

End DeclFacts.

(* ------------------------------------------------------------------ *)
(** ** Asynchronous connect *)

Module ConnectFacts.

Import Events Connect Fixtures.

Lemma find_filter {A} (f : A -> bool) (l : list A) :
  List.find f l = hd_error (List.filter f l).
Proof. induction l as [|x l IH]; simpl; [done|]. by destruct (f x). Qed.

Lemma filter_tok_drop_other (t t' : nat) (l : list ev_reg) :
  t' <> t ->
  List.filter (fun r => Nat.eqb r.(r_token) t)
    (List.filter (fun r => negb (Nat.eqb r.(r_token) t')) l) =
  List.filter (fun r => Nat.eqb r.(r_token) t) l.
Proof.
  intros Hne. induction l as [|r l IH]; simpl; [done|].
  destruct (Nat.eqb_spec r.(r_token) t) as [Ht|Ht];
    destruct (Nat.eqb_spec r.(r_token) t') as [Ht'|Ht']; simpl;
    try rewrite IH; try (exfalso; lia); try done.
  - by rewrite (proj2 (Nat.eqb_eq _ _) Ht).
  - by rewrite (proj2 (Nat.eqb_neq _ _) Ht).
Qed.

Lemma filter_tok_drop_self (t : nat) (l : list ev_reg) :
  List.filter (fun r => Nat.eqb r.(r_token) t)
    (List.filter (fun r => negb (Nat.eqb r.(r_token) t)) l) = [].
Proof.
  induction l as [|r l IH]; simpl; [done|].
  destruct (Nat.eqb r.(r_token) t) eqn:E; simpl; [done|]. by rewrite E.
Qed.

Lemma calls_for_app t tr tr' :
  calls_for t (tr ++ tr') = calls_for t tr + calls_for t tr'.
Proof. unfold calls_for. by rewrite List.filter_app, length_app. Qed.

Lemma calls_for_single t t' c :
  calls_for t [(t', c)] = if Nat.eqb t' t then 1 else 0.
Proof. unfold calls_for. simpl. by destruct (Nat.eqb t' t). Qed.

(** Firing another registration leaves request [t] as it is. *)
Lemma fire_other l t t' ok :
  t' <> t ->
  calls_for t (fire l t' ok).(l_trace) = calls_for t l.(l_trace) /\
  pending_for t (fire l t' ok) = pending_for t l.
Proof.
  intros Hne. unfold fire.
  destruct (List.find _ _) as [r|]; [|done].
  unfold pending_for; simpl. split.
  - rewrite calls_for_app, calls_for_single.
    destruct (Nat.eqb_spec t' t); [lia|]. lia.
  - destruct (has_flag _ _); [done|]. by apply filter_tok_drop_other.
Qed.

Lemma fire_self l t ok :
  req_state t l -> calls_for t (fire l t ok).(l_trace) = 1 /\ pending_for t (fire l t ok) = [].
Proof.
  intros [[H0 [r [Hp Hr]]] | [H1 Hp]].
  - unfold fire. rewrite find_filter.
    unfold pending_for in Hp. rewrite Hp. simpl. rewrite Hr.
    unfold pending_for; simpl. split.
    + rewrite calls_for_app, calls_for_single, Nat.eqb_refl. lia.
    + apply filter_tok_drop_self.
  - unfold fire. rewrite find_filter.
    unfold pending_for in Hp. rewrite Hp. simpl. split; [done|]. exact Hp.
Qed.

Lemma fire_req_state l t t' ok : req_state t l -> req_state t (fire l t' ok).
Proof.
  intros Hs. destruct (decide (t' = t)) as [->|Hne].
  - right. by apply fire_self.
  - destruct (fire_other l t t' ok Hne) as [Hc Hp].
    unfold req_state. rewrite Hc, Hp. exact Hs.
Qed.

Lemma run_trace_extends l fs : exists tr, (run l fs).(l_trace) = l.(l_trace) ++ tr.
Proof.
  revert l. induction fs as [|[t ok] fs IH]; intros l; simpl.
  - exists []. by rewrite app_nil_r.
  - destruct (IH (fire l t ok)) as [tr Htr]. rewrite Htr.
    unfold fire. destruct (List.find _ _); simpl.
    + eexists. by rewrite <- app_assoc.
    + by eexists.
Qed.

Lemma run_req_state l t fs :
  req_state t l ->
  req_state t (run l fs) /\
  (In t (map fst fs) -> calls_for t (run l fs).(l_trace) = 1).
Proof.
  revert l. induction fs as [|[t' ok] fs IH]; intros l Hs; simpl.
  - split; [done|]. intros [].
  - destruct (IH (fire l t' ok) (fire_req_state l t t' ok Hs)) as [Hs' Hin].
    split; [done|]. intros [Heq | Hin']; [|by apply Hin].
    simpl in Heq. subst t'.
    destruct (fire_self l t ok Hs) as [Hc _].
    destruct (run_trace_extends (fire l t ok) fs) as [tr Htr].
    destruct Hs' as [[H0 _] | [H1 _]]; [|done].
    rewrite Htr, calls_for_app, Hc in H0. lia.
Qed.

Lemma req_state_calls_le l t : req_state t l -> calls_for t l.(l_trace) <= 1.
Proof. intros [[H _] | [H _]]; lia. Qed.

Lemma calls_for_fresh t tr : Forall (fun e => e.1 < t) tr -> calls_for t tr = 0.
Proof.
  induction 1 as [|e tr He _ IH]; [done|].
  unfold calls_for in *. simpl.
  destruct (Nat.eqb_spec e.1 t); [lia|done].
Qed.

Lemma pending_for_fresh t ps :
  Forall (fun r => r.(r_token) < t) ps ->
  List.filter (fun r => Nat.eqb r.(r_token) t) ps = [].
Proof.
  induction 1 as [|r ps Hr _ IH]; [done|]. simpl.
  destruct (Nat.eqb_spec r.(r_token) t); [lia|done].
Qed.

Lemma connect_req_state l cm fd arg :
  loop_wf l ->
  req_state (vde_cm_connect l cm fd arg).2 (vde_cm_connect l cm fd arg).1.
Proof.
  intros [Hp Ht]. left. simpl. split.
  - by apply calls_for_fresh.
  - exists (mk_reg l.(l_next) fd VDE_EV_WRITE cm arg). split; [|reflexivity].
    unfold pending_for; simpl.
    rewrite List.filter_app, pending_for_fresh by done.
    simpl. by rewrite Nat.eqb_refl.
Qed.

(** C6: a connect request runs no callback during the call; over any run
    of the handler afterwards, at most one callback -- success or error --
    is run for it, and exactly one as soon as the handler has fired its
    registration. *)
Theorem vde_cm_connect_exactly_once (l : ev_loop) (cm : string) (fd : Z)
    (arg : nat) (Hwf : loop_wf l) :
  let l1 := (vde_cm_connect l cm fd arg).1 in
  let t := (vde_cm_connect l cm fd arg).2 in
  l1.(l_trace) = l.(l_trace) /\
  (forall fs, calls_for t (run l1 fs).(l_trace) <= 1) /\
  (forall fs, In t (map fst fs) -> calls_for t (run l1 fs).(l_trace) = 1).
Proof.
  intros l1 t. pose proof (connect_req_state l cm fd arg Hwf) as Hs.
  split; [reflexivity|split].
  - intros fs. apply req_state_calls_le. by apply run_req_state.
  - intros fs. by apply run_req_state.
Qed.

Lemma vde_cm_connect_exactly_once_witness :
  calls_for 0 (run (vde_cm_connect loop0 "cm" 3 7).1 [(0, false); (0, true)]).(l_trace) = 1.
Proof.
  destruct (vde_cm_connect_exactly_once loop0 "cm" 3 7) as (_ & _ & H).
  - split; constructor.
  - apply H. simpl. left. reflexivity.
Defined.

End ConnectFacts.

(* ------------------------------------------------------------------ *)
(** ** Packet buffer: further properties *)

Module PacketExtra.

Import Packet PacketFacts Fixtures.

Lemma slice_ext l1 l2 a n :
  (forall k, k < n -> l1 !! (a + k) = l2 !! (a + k)) ->
  slice l1 a n = slice l2 a n.
Proof.
  intros H. apply list_eq. intros i.
  destruct (decide (i < n)).
  - rewrite !lookup_slice by done. by apply H.
  - rewrite !lookup_slice_ge by lia. done.
Qed.

Lemma cpy_data_in dst src i :
  pkt_wf src -> src.(data_size) <= dst.(data_size) ->
  length dst.(data) = dst.(data_size) ->
  src.(head) <= i < src.(data_size) ->
  (vde_pkt_cpy dst src).(data) !! i = src.(data) !! i.
Proof.
  intros (H1 & H2 & H3 & H4 & H5) Hcap Hdst Hi. simpl.
  rewrite lookup_memcpy_at_in; [| lia |].
  - rewrite lookup_slice by lia. f_equal. lia.
  - rewrite length_slice; lia.
Qed.

Lemma compact_data dst src :
  pkt_wf src ->
  (vde_pkt_compact_cpy dst src).(data) =
    slice src.(data) src.(hdr) sizeof_vde_hdr ++
    slice src.(data) src.(payload) (payload_len src).
Proof.
  intros (H1 & H2 & H3 & H4 & H5).
  assert (Hl : length (slice src.(data) src.(hdr) sizeof_vde_hdr ++
                       slice src.(data) src.(payload) (payload_len src))
               = sizeof_vde_hdr + payload_len src).
  { unfold payload_len. rewrite length_app, !length_slice; lia. }
  unfold vde_pkt_compact_cpy. cbn [data]. unfold memcpy_at.
  rewrite take_0, app_nil_l. apply take_app_length'. by rewrite Hl.
Qed.

(** Compacting a copy is compacting the original: an intermediate
    [vde_pkt_cpy] into a large enough packet makes no difference to
    [vde_pkt_compact_cpy]. *)
Theorem vde_pkt_compact_cpy_after_cpy (d1 d2 src : vde_pkt)
    (Hsrc : pkt_wf src) (Hd1 : length d1.(data) = d1.(data_size))
    (Hcap : src.(data_size) <= d1.(data_size)) :
  vde_pkt_compact_cpy d2 (vde_pkt_cpy d1 src) = vde_pkt_compact_cpy d2 src.
Proof.
  pose proof Hsrc as (H1 & H2 & H3 & H4 & H5).
  unfold vde_pkt_compact_cpy, payload_len.
  change (hdr (vde_pkt_cpy d1 src)) with (hdr src).
  change (payload (vde_pkt_cpy d1 src)) with (payload src).
  change (tail (vde_pkt_cpy d1 src)) with (tail src).
  replace (slice (vde_pkt_cpy d1 src).(data) src.(hdr) sizeof_vde_hdr)
    with (slice src.(data) src.(hdr) sizeof_vde_hdr).
  2:{ symmetry. apply slice_ext. intros k Hk.
      apply cpy_data_in; try assumption; unfold sizeof_vde_hdr in *; lia. }
  replace (slice (vde_pkt_cpy d1 src).(data) src.(payload) (src.(tail) - src.(payload)))
    with (slice src.(data) src.(payload) (src.(tail) - src.(payload))).
  2:{ symmetry. apply slice_ext. intros k Hk.
      apply cpy_data_in; try assumption; unfold sizeof_vde_hdr in *; lia. }
  reflexivity.
Qed.

(** Compacting twice is compacting once: [vde_pkt_compact_cpy] of an
    already compacted packet gives the same result as compacting the
    original. *)
Theorem vde_pkt_compact_cpy_twice (d1 d2 src : vde_pkt)
    (Hsrc : pkt_wf src) (Hd1 : length d1.(data) = d1.(data_size))
    (Hcap : sizeof_vde_hdr + payload_len src <= d1.(data_size)) :
  vde_pkt_compact_cpy d2 (vde_pkt_compact_cpy d1 src) = vde_pkt_compact_cpy d2 src.
Proof.
  pose proof Hsrc as (H1 & H2 & H3 & H4 & H5).
  assert (Hlen : payload_len (vde_pkt_compact_cpy d1 src) = payload_len src)
    by (unfold vde_pkt_compact_cpy, payload_len; cbn [tail payload]; lia).
  assert (Hh : length (slice src.(data) src.(hdr) sizeof_vde_hdr) = sizeof_vde_hdr)
    by (apply length_slice; lia).
  assert (Hp : length (slice src.(data) src.(payload) (payload_len src)) = payload_len src)
    by (apply length_slice; unfold payload_len; lia).
  unfold vde_pkt_compact_cpy at 1.
  rewrite Hlen, (compact_data d1 src Hsrc).
  change (hdr (vde_pkt_compact_cpy d1 src)) with 0.
  change (payload (vde_pkt_compact_cpy d1 src)) with sizeof_vde_hdr.
  rewrite (slice_app_l _ _ sizeof_vde_hdr) by lia.
  rewrite (slice_app_r _ _ sizeof_vde_hdr (payload_len src)) by lia.
  reflexivity.
Qed.

Lemma vde_pkt_compact_cpy_after_cpy_witness :
  vde_pkt_compact_cpy compact_dst (vde_pkt_cpy cpy_dst cpy_src) =
  vde_pkt_compact_cpy compact_dst cpy_src.
Proof.
  apply vde_pkt_compact_cpy_after_cpy.
  - unfold cpy_src, pkt_wf, sizeof_vde_hdr; simpl; lia.
  - reflexivity.
  - unfold cpy_src, cpy_dst; simpl; lia.
Defined.

Lemma vde_pkt_compact_cpy_twice_witness :
  vde_pkt_compact_cpy cpy_dst (vde_pkt_compact_cpy compact_dst compact_src) =
  vde_pkt_compact_cpy cpy_dst compact_src.
Proof.
  apply vde_pkt_compact_cpy_twice.
  - unfold compact_src, pkt_wf, sizeof_vde_hdr; simpl; lia.
  - reflexivity.
  - unfold compact_src, compact_dst, payload_len, sizeof_vde_hdr; simpl; lia.
Defined.

End PacketExtra.

(* ------------------------------------------------------------------ *)
(** ** Context registry: further properties *)

Module ContextExtra.

Import Context Registry ContextFacts Fixtures.

Lemma filter_length_zero {A} (f : A -> bool) (l : list A) :
  length (List.filter f l) = 0 <-> forall x, In x l -> f x = false.
Proof.
  induction l as [|y l IH]; simpl; [split; [intros _ x []|done]|].
  destruct (f y) eqn:Hy; simpl; split.
  - lia.
  - intros H. by rewrite (H y (or_introl eq_refl)) in Hy.
  - intros H x [<-|Hx]; [done|]. by apply IH.
  - intros H. apply IH. intros x Hx. apply H. by right.
Qed.

Lemma refcount_zero reg name :
  component_refcount reg name = 0 <->
  forall k c, reg !! k = Some c -> k <> name -> name ∉ c.(c_refs).
Proof.
  unfold component_refcount. rewrite filter_length_zero. split.
  - intros H k c Hk Hne Hin.
    assert (Hf := H (k, c) (proj1 (list_elem_of_In _ _) (proj2 (elem_of_map_to_list _ _ _) Hk))).
    apply bool_decide_eq_false in Hf. simpl in Hf. tauto.
  - intros H [k c] Hin. apply bool_decide_eq_false. simpl.
    apply list_elem_of_In, elem_of_map_to_list in Hin.
    intros [Hne Hr]. exact (H k c Hin Hne Hr).
Qed.

(** Creating a component and deleting it again gives back the original
    context, provided no registered component already refers to its
    name. *)
Theorem vde_context_new_then_del (ctx ctx1 : vde_context)
    (kind : vde_component_kind) (family : string) (name : option string)
    (refs : list string) (c : vde_component)
    (Hnew : vde_context_new_component ctx kind family name refs = (ctx1, VOk c))
    (Hfree : forall k c', ctx.(ctx_components) !! k = Some c' -> c.(c_name) ∉ c'.(c_refs)) :
  vde_context_component_del ctx1 c = (ctx, VOk tt).
Proof.
  unfold vde_context_new_component in Hnew.
  destruct (impl_registered ctx kind family); simpl in Hnew; [|discriminate].
  destruct (ctx_components ctx !! _) eqn:Hl; [discriminate|].
  injection Hnew as <- <-.
  set (nm := match name with Some n => n | None => auto_name (ctx_components ctx) end) in *.
  unfold vde_context_component_del. simpl. rewrite lookup_insert_eq.
  rewrite bool_decide_eq_false_2.
  - unfold with_components. simpl. rewrite delete_insert_id by done.
    by destruct ctx.
  - assert (Hz : component_refcount
                   (<[nm := mk_component kind family nm refs]> (ctx_components ctx)) nm = 0).
    { apply refcount_zero. intros k c' Hk Hne.
      rewrite lookup_insert_ne in Hk by congruence. simpl. by apply (Hfree k c'). }
    lia.
Qed.

Lemma vde_context_new_then_del_witness :
  vde_context_component_del
    (vde_context_new_component ctx_AB VDE_ENGINE "null" (Some "C") []).1
    (mk_component VDE_ENGINE "null" "C" []) = (ctx_AB, VOk tt).
Proof.
  apply (vde_context_new_then_del ctx_AB _ VDE_ENGINE "null" (Some "C") []).
  - reflexivity.
  - intros k c' Hk. unfold ctx_AB in Hk. simpl in Hk.
    destruct (decide (k = "A")) as [->|Hka].
    + rewrite lookup_insert_eq in Hk. injection Hk as <-. simpl. set_solver.
    + rewrite lookup_insert_ne in Hk by congruence.
      destruct (decide (k = "B")) as [->|Hkb].
      * rewrite lookup_insert_eq in Hk. injection Hk as <-. simpl. set_solver.
      * rewrite lookup_insert_ne in Hk by congruence. done.
Defined.

(** Back-references never dangle: if every reference held by a registered
    component names a registered component, this stays so after a
    [vde_context_new_component] whose references are registered, and
    after every successful [vde_context_component_del]. *)
Theorem registry_closed_preserved (ctx : vde_context)
    (Hc : registry_closed ctx.(ctx_components)) :
  (forall kind family name refs ctx' c,
     (forall r, r ∈ refs -> is_Some (ctx.(ctx_components) !! r)) ->
     vde_context_new_component ctx kind family name refs = (ctx', VOk c) ->
     registry_closed ctx'.(ctx_components)) /\
  (forall component ctx' u,
     vde_context_component_del ctx component = (ctx', VOk u) ->
     registry_closed ctx'.(ctx_components)).
Proof.
  split.
  - intros kind family name refs ctx' c Hrefs Hnew.
    unfold vde_context_new_component in Hnew.
    destruct (impl_registered ctx kind family); simpl in Hnew; [|discriminate].
    destruct (ctx_components ctx !! _) eqn:Hl; [discriminate|].
    injection Hnew as <- <-. simpl.
    intros k c' r Hk Hr Hne.
    destruct (decide (k = match name with Some n => n | None => auto_name (ctx_components ctx) end))
      as [->|Hkn].
    + rewrite lookup_insert_eq in Hk. injection Hk as <-. simpl in Hr.
      destruct (Hrefs r Hr) as [x Hx].
      destruct (decide (r = match name with Some n => n | None => auto_name (ctx_components ctx) end))
        as [->|Hrn]; [by rewrite lookup_insert_eq|].
      rewrite lookup_insert_ne by congruence. eauto.
    + rewrite lookup_insert_ne in Hk by congruence.
      destruct (Hc k c' r Hk Hr Hne) as [x Hx].
      destruct (decide (r = match name with Some n => n | None => auto_name (ctx_components ctx) end))
        as [->|Hrn]; [by rewrite lookup_insert_eq|].
      rewrite lookup_insert_ne by congruence. eauto.
  - intros component ctx' u Hdel.
    unfold vde_context_component_del in Hdel.
    destruct (ctx_components ctx !! c_name component) eqn:Hl; [|discriminate].
    destruct (bool_decide (0 < component_refcount _ _)) eqn:Hb; [discriminate|].
    injection Hdel as <- _. simpl.
    apply bool_decide_eq_false in Hb.
    assert (Hz : component_refcount (ctx_components ctx) (c_name component) = 0) by lia.
    intros k c' r Hk Hr Hne.
    destruct (decide (k = c_name component)) as [->|Hkn];
      [by rewrite lookup_delete_eq in Hk|].
    rewrite lookup_delete_ne in Hk by congruence.
    destruct (decide (r = c_name component)) as [->|Hrn].
    + exfalso. exact (proj1 (refcount_zero _ _) Hz k c' Hk Hkn Hr).
    + rewrite lookup_delete_ne by congruence. exact (Hc k c' r Hk Hr Hne).
Qed.

Lemma registry_closed_preserved_witness :
  registry_closed (vde_context_component_del ctx_AB comp_A).1.(ctx_components).
Proof.
  assert (Hc : registry_closed ctx_AB.(ctx_components)).
  { intros k c r Hk Hr Hne. unfold ctx_AB in Hk. simpl in Hk.
    destruct (decide (k = "A")) as [->|Hka].
    - rewrite lookup_insert_eq in Hk. injection Hk as <-. simpl in Hr.
      apply list_elem_of_singleton in Hr. subst r. unfold ctx_AB. simpl.
      rewrite lookup_insert_ne by discriminate. rewrite lookup_insert_eq. eauto.
    - rewrite lookup_insert_ne in Hk by congruence.
      destruct (decide (k = "B")) as [->|Hkb].
      + rewrite lookup_insert_eq in Hk. injection Hk as <-. simpl in Hr. set_solver.
      + rewrite lookup_insert_ne in Hk by congruence. done. }
  apply (proj2 (registry_closed_preserved ctx_AB Hc) comp_A _ tt).
  reflexivity.
Defined.

End ContextExtra.

(* ------------------------------------------------------------------ *)
(** ** Event handler: persistent, one-shot and deleted registrations *)

Module HandlerExtra.

Import Events Connect Handler ConnectFacts Fixtures.

Definition fired_count (t : nat) (fs : list (nat * bool)) : nat :=
  count_occ Nat.eq_dec (map fst fs) t.

Lemma one_shot_run l t fs :
  req_state t l ->
  calls_for t (run l fs).(l_trace) = Nat.min 1 (calls_for t l.(l_trace) + fired_count t fs).
Proof.
  revert l. induction fs as [|[t' ok] fs IH]; intros l Hs; cbn [run].
  - pose proof (req_state_calls_le l t Hs). unfold fired_count; cbn [map fst count_occ]. lia.
  - rewrite (IH _ (fire_req_state l t t' ok Hs)). unfold fired_count; cbn [map fst count_occ].
    destruct (Nat.eq_dec t' t) as [->|Hne].
    + destruct (fire_self l t ok Hs) as [Hc _]. rewrite Hc. lia.
    + destruct (fire_other l t t' ok Hne) as [Hc _]. rewrite Hc. done.
Qed.

Lemma persistent_run l t r fs :
  pending_for t l = [r] -> has_flag r.(r_events) VDE_EV_PERSIST = true ->
  calls_for t (run l fs).(l_trace) = calls_for t l.(l_trace) + fired_count t fs.
Proof.
  revert l. induction fs as [|[t' ok] fs IH]; intros l Hp Hr; cbn [run].
  - unfold fired_count; cbn [map fst count_occ]. lia.
  - unfold fired_count; cbn [map fst count_occ].
    destruct (Nat.eq_dec t' t) as [->|Hne].
    + assert (Hf : fire l t ok =
                   mk_loop l.(l_pending) l.(l_next) (l.(l_trace) ++ [(t, connect_event_cb r ok)])).
      { unfold fire. rewrite find_filter. unfold pending_for in Hp. rewrite Hp. simpl.
        by rewrite Hr. }
      rewrite (IH (fire l t ok)).
      * rewrite Hf. simpl. rewrite calls_for_app, calls_for_single, Nat.eqb_refl.
        unfold fired_count. lia.
      * rewrite Hf. exact Hp.
      * exact Hr.
    + destruct (fire_other l t t' ok Hne) as [Hc Hp'].
      rewrite (IH (fire l t' ok)); [|by rewrite Hp'|exact Hr].
      rewrite Hc. unfold fired_count. lia.
Qed.

(** A registration made with [event_add] runs its callback once per
    firing when [VDE_EV_PERSIST] is in its mask, and only on its first
    firing otherwise. *)
Theorem event_add_callback_count (l : ev_loop) (fd ev : Z) (cm : string)
    (arg : nat) (Hwf : loop_wf l) (fs : list (nat * bool)) :
  let l1 := (event_add l fd ev cm arg).1 in
  let t := (event_add l fd ev cm arg).2 in
  calls_for t (run l1 fs).(l_trace) =
    if has_flag ev VDE_EV_PERSIST then fired_count t fs
    else Nat.min 1 (fired_count t fs).
Proof.
  intros l1 t. destruct Hwf as [Hp Ht].
  assert (H0 : calls_for t l1.(l_trace) = 0) by (by apply calls_for_fresh).
  assert (Hpend : pending_for t l1 = [mk_reg t fd ev cm arg]).
  { unfold pending_for, l1, t; simpl.
    rewrite List.filter_app, pending_for_fresh by done.
    simpl. by rewrite Nat.eqb_refl. }
  destruct (has_flag ev VDE_EV_PERSIST) eqn:Hper.
  - rewrite (persistent_run l1 t _ fs Hpend Hper), H0. done.
  - rewrite one_shot_run, H0; [done|].
    left. split; [done|]. eexists. split; [exact Hpend|exact Hper].
Qed.

Lemma event_add_callback_count_witness :
  calls_for 0 (run (event_add loop0 3 (Z.lor VDE_EV_READ VDE_EV_PERSIST) "cm" 1).1
                 [(0, true); (0, true); (0, false)]).(l_trace) = 3.
Proof.
  rewrite (event_add_callback_count loop0 3 _ "cm" 1).
  - reflexivity.
  - split; constructor.
Defined.

(** After [event_del] of a registration, the handler never runs its
    callback again, whatever it fires afterwards. *)
Theorem event_del_no_more_calls (l : ev_loop) (t : nat) (fs : list (nat * bool)) :
  calls_for t (run (event_del l t) fs).(l_trace) = calls_for t l.(l_trace).
Proof.
  change (l_trace l) with (l_trace (event_del l t)).
  assert (Hp : pending_for t (event_del l t) = []) by apply filter_tok_drop_self.
  revert Hp. generalize (event_del l t). clear l.
  induction fs as [|[t' ok] fs IH]; intros l Hp; simpl; [done|].
  destruct (decide (t' = t)) as [->|Hne].
  - assert (Hf : fire l t ok = l).
    { unfold fire. rewrite find_filter. unfold pending_for in Hp. by rewrite Hp. }
    rewrite Hf. by apply IH.
  - destruct (fire_other l t t' ok Hne) as [Hc Hp'].
    rewrite IH; [done|]. by rewrite Hp'.
Qed.

(** Two handlers agree on the registration [t] when they hold the same
    pending registrations for [t] and have run its callback as often. *)
Definition agree_on (t : nat) (l1 l2 : ev_loop) : Prop :=
  pending_for t l1 = pending_for t l2 /\
  calls_for t l1.(l_trace) = calls_for t l2.(l_trace).

Lemma fire_agree t l1 l2 t' ok :
  agree_on t l1 l2 -> agree_on t (fire l1 t' ok) (fire l2 t' ok).
Proof.
  intros [Hp Hc]. destruct (decide (t' = t)) as [->|Hne].
  - unfold fire. rewrite !find_filter.
    change (List.filter (fun r => Nat.eqb r.(r_token) t) l1.(l_pending)) with (pending_for t l1).
    change (List.filter (fun r => Nat.eqb r.(r_token) t) l2.(l_pending)) with (pending_for t l2).
    rewrite Hp. destruct (hd_error (pending_for t l2)) as [r|]; [|by split].
    unfold agree_on, pending_for; cbn [l_pending l_trace].
    rewrite !calls_for_app, Hc. split; [|done].
    destruct (has_flag _ _); [exact Hp|].
    by rewrite !filter_tok_drop_self.
  - destruct (fire_other l1 t t' ok Hne) as [Hc1 Hp1].
    destruct (fire_other l2 t t' ok Hne) as [Hc2 Hp2].
    unfold agree_on. by rewrite Hc1, Hp1, Hc2, Hp2.
Qed.

Lemma run_agree t l1 l2 fs :
  agree_on t l1 l2 -> calls_for t (run l1 fs).(l_trace) = calls_for t (run l2 fs).(l_trace).
Proof.
  revert l1 l2. induction fs as [|[t' ok] fs IH]; intros l1 l2 H; simpl.
  - apply H.
  - apply IH. by apply fire_agree.
Qed.

(** [event_del] of one registration does not change how often the
    callback of any other registration runs, whatever is fired
    afterwards. *)
Theorem event_del_other_unaffected (l : ev_loop) (t t' : nat)
    (Hne : t' <> t) (fs : list (nat * bool)) :
  calls_for t' (run (event_del l t) fs).(l_trace) = calls_for t' (run l fs).(l_trace).
Proof.
  apply run_agree. split; [|done].
  unfold pending_for, event_del. cbn [l_pending].
  apply filter_tok_drop_other. congruence.
Qed.

Lemma event_del_other_unaffected_witness :
  calls_for 0 (run (event_del (event_add (event_add loop0 3 VDE_EV_WRITE "cm" 1).1
                                  4 VDE_EV_WRITE "cm" 2).1 1)
                 [(0, true); (1, true)]).(l_trace) = 1.
Proof.
  rewrite (event_del_other_unaffected _ 1 0) by lia.
  reflexivity.
Defined.

(** [event_add] of a new registration does not change how often the
    callback of any registration already made runs, whatever is fired
    afterwards. *)
Theorem event_add_other_unaffected (l : ev_loop) (fd ev : Z) (cm : string)
    (arg : nat) (t : nat) (Hne : t <> l.(l_next)) (fs : list (nat * bool)) :
  calls_for t (run (event_add l fd ev cm arg).1 fs).(l_trace) =
  calls_for t (run l fs).(l_trace).
Proof.
  apply run_agree. split; [|done].
  unfold pending_for, event_add. cbn [l_pending fst].
  rewrite List.filter_app. simpl.
  destruct (Nat.eqb_spec l.(l_next) t) as [E|_]; [congruence|].
  apply app_nil_r.
Qed.

Lemma event_add_other_unaffected_witness :
  calls_for 0 (run (event_add (event_add loop0 3 VDE_EV_WRITE "cm" 1).1
                      4 (Z.lor VDE_EV_READ VDE_EV_PERSIST) "cm" 2).1
                 [(1, true); (0, false); (1, true)]).(l_trace) = 1.
Proof.
  rewrite (event_add_other_unaffected _ 4 _ "cm" 2 0) by (simpl; lia).
  reflexivity.
Defined.

End HandlerExtra.

(* ------------------------------------------------------------------ *)
(** ** Logging macros *)

Module LogExtra.

Import Log.

Lemma run_macros_out dbg st ms :
  (run_macros dbg st ms).(log_handler) = st.(log_handler) /\
  (run_macros dbg st ms).(log_out) =
    st.(log_out) ++
    map (fun mf => (current_sink st, macro_priority mf.1, mf.2))
        (List.filter (fun mf => dbg || negb (is_debug mf.1)) ms).
Proof.
  revert st. induction ms as [|[m fmt] ms IH]; intros st; simpl.
  - by rewrite app_nil_r.
  - destruct (IH (expand_macro dbg st m fmt)) as [Hh Ho].
    assert (Hs : current_sink (expand_macro dbg st m fmt) = current_sink st /\
                 log_handler (expand_macro dbg st m fmt) = log_handler st).
    { destruct m, dbg; done. }
    destruct Hs as [Hs Hh'].
    rewrite Hh, Ho, Hs, Hh'. split; [done|].
    destruct m, dbg; simpl; rewrite <- ?app_assoc; done.
Qed.

(** After [vde_log_set_handler(h)], a sequence of logging macros appends
    one message per macro, at the macro's priority, to the handler [h]
    (standard error when [h] is [NULL]); [vde_debug] messages are
    dropped unless [VDE3_DEBUG] is defined. *)
Theorem log_macros_output (dbg : bool) (st : log_state) (h : option nat)
    (ms : list (log_macro * string)) :
  let st' := run_macros dbg (vde_log_set_handler st h) ms in
  st'.(log_handler) = h /\
  st'.(log_out) =
    st.(log_out) ++
    map (fun mf => (match h with None => STDERR | Some x => HANDLER x end,
                    macro_priority mf.1, mf.2))
        (List.filter (fun mf => dbg || negb (is_debug mf.1)) ms).
Proof.
  intros st'. destruct (run_macros_out dbg (vde_log_set_handler st h) ms) as [Hh Ho].
  split; [exact Hh|]. unfold st'. rewrite Ho. reflexivity.
Qed.

End LogExtra.
